(** * Bracket generation and roster watching for a 32-team double-elimination
      tournament

    Shallow embedding of
    - [DoubleEliminationMatchStrategy] (strategy/DoubleEliminationMatchStrategy.hpp), and
    - [MatchDelegate] (consumer MatchDelegate.hpp),
    followed by the properties of the specification that concern them.

    Conventions of the embedding.
    - A C++ [int] is a [Z]; every [int] of this code stays between 0 and 32,
      so no 32-bit wrap-around is ever reached.  [int / 2] is [Z.quot].
    - [std::string] is [string]; [+] on strings is [+:+]; [std::to_string]
      on an [int] and the [{}] formatting of an integer are [pretty].
    - A [std::vector] is a [list].  [v[i]] is defined only for
      [0 <= i < v.size()]; outside these bounds the C++ program has undefined
      behaviour, which the embedding renders as [None]. *)

From stdpp Require Import base option strings list list_numbers pretty.
From Stdlib Require Import Ascii.

Open Scope Z_scope.

(** ** domain::Match *)

Module domain.

Inductive BracketType := WINNERS | LOSERS.

(** Modelled from the spec: domain/Match.hpp is not among the sources; the
    status enumeration is "{PENDING, ...}" with later states IN_PROGRESS and
    COMPLETE. *)
Inductive MatchStatus := PENDING | IN_PROGRESS | COMPLETE.

(** Modelled from the spec: domain/Match.hpp is not among the sources.  The
    fields are the accessors the strategy assigns through; an absent
    back-reference is the empty string. *)
Record Match := mkMatch {
  Id : string;
  TournamentId : string;
  GroupId : string;
  Bracket : BracketType;
  RoundNumber : Z;
  MatchNumberInRound : Z;
  Status : MatchStatus;
  NextMatchWinnerId : string;
  NextMatchLoserId : string;
  IsGrandFinal : bool;
  IsBracketReset : bool
}.

(** Modelled from the spec: the default-constructed [domain::Match] (its
    constructor is in the missing header): no references, no flags. *)
Definition Match_default : Match :=
  mkMatch "" "" "" WINNERS 0 0 PENDING "" "" false false.

(** Assignments through the reference-returning accessors. *)
Definition set_Id (v : string) (m : Match) : Match :=
  mkMatch v (TournamentId m) (GroupId m) (Bracket m) (RoundNumber m)
    (MatchNumberInRound m) (Status m) (NextMatchWinnerId m)
    (NextMatchLoserId m) (IsGrandFinal m) (IsBracketReset m).
Definition set_TournamentId (v : string) (m : Match) : Match :=
  mkMatch (Id m) v (GroupId m) (Bracket m) (RoundNumber m)
    (MatchNumberInRound m) (Status m) (NextMatchWinnerId m)
    (NextMatchLoserId m) (IsGrandFinal m) (IsBracketReset m).
Definition set_GroupId (v : string) (m : Match) : Match :=
  mkMatch (Id m) (TournamentId m) v (Bracket m) (RoundNumber m)
    (MatchNumberInRound m) (Status m) (NextMatchWinnerId m)
    (NextMatchLoserId m) (IsGrandFinal m) (IsBracketReset m).
Definition set_Bracket (v : BracketType) (m : Match) : Match :=
  mkMatch (Id m) (TournamentId m) (GroupId m) v (RoundNumber m)
    (MatchNumberInRound m) (Status m) (NextMatchWinnerId m)
    (NextMatchLoserId m) (IsGrandFinal m) (IsBracketReset m).
Definition set_RoundNumber (v : Z) (m : Match) : Match :=
  mkMatch (Id m) (TournamentId m) (GroupId m) (Bracket m) v
    (MatchNumberInRound m) (Status m) (NextMatchWinnerId m)
    (NextMatchLoserId m) (IsGrandFinal m) (IsBracketReset m).
Definition set_MatchNumberInRound (v : Z) (m : Match) : Match :=
  mkMatch (Id m) (TournamentId m) (GroupId m) (Bracket m) (RoundNumber m)
    v (Status m) (NextMatchWinnerId m)
    (NextMatchLoserId m) (IsGrandFinal m) (IsBracketReset m).
Definition set_Status (v : MatchStatus) (m : Match) : Match :=
  mkMatch (Id m) (TournamentId m) (GroupId m) (Bracket m) (RoundNumber m)
    (MatchNumberInRound m) v (NextMatchWinnerId m)
    (NextMatchLoserId m) (IsGrandFinal m) (IsBracketReset m).
Definition set_NextMatchWinnerId (v : string) (m : Match) : Match :=
  mkMatch (Id m) (TournamentId m) (GroupId m) (Bracket m) (RoundNumber m)
    (MatchNumberInRound m) (Status m) v
    (NextMatchLoserId m) (IsGrandFinal m) (IsBracketReset m).
Definition set_NextMatchLoserId (v : string) (m : Match) : Match :=
  mkMatch (Id m) (TournamentId m) (GroupId m) (Bracket m) (RoundNumber m)
    (MatchNumberInRound m) (Status m) (NextMatchWinnerId m)
    v (IsGrandFinal m) (IsBracketReset m).
Definition set_IsGrandFinal (v : bool) (m : Match) : Match :=
  mkMatch (Id m) (TournamentId m) (GroupId m) (Bracket m) (RoundNumber m)
    (MatchNumberInRound m) (Status m) (NextMatchWinnerId m)
    (NextMatchLoserId m) v (IsBracketReset m).
Definition set_IsBracketReset (v : bool) (m : Match) : Match :=
  mkMatch (Id m) (TournamentId m) (GroupId m) (Bracket m) (RoundNumber m)
    (MatchNumberInRound m) (Status m) (NextMatchWinnerId m)
    (NextMatchLoserId m) (IsGrandFinal m) v.

#[global] Instance BracketType_eq_dec : EqDecision BracketType.
Proof. solve_decision. Defined.

End domain.

Import domain.

(** ** std::vector indexing and counted loops *)

(** [v[i]] read with an [int] index. *)
Definition vec_read {A} (v : list A) (i : Z) : option A :=
  if bool_decide (0 ≤ i) then v !! Z.to_nat i else None.

(** [v[i].field() = x]: the element must exist to be assigned through. *)
Definition vec_modify {A} (v : list A) (i : Z) (f : A → A) : option (list A) :=
  x ← vec_read v i; Some (<[Z.to_nat i := f x]> v).

(** [for (int i = lo; i < hi; ++i) body], threading the mutated state. *)
Definition for_range {S} (lo hi : Z) (body : Z → S → S) (s : S) : S :=
  foldl (λ acc i, body i acc) s (seqZ lo (hi - lo)).

(** The same loop when the body can leave the defined behaviour. *)
Definition for_range_opt {S} (lo hi : Z) (body : Z → S → option S) (s : S)
  : option S :=
  foldl (λ acc i, acc ≫= body i) (Some s) (seqZ lo (hi - lo)).

(** [for (size_t idx = 0; idx < v.size(); ++idx)] reading [v[idx]]. *)
Definition for_each_index {A S} (v : list A) (body : nat → A → S → S) (s : S) : S :=
  foldl (λ acc ix, body ix.1 ix.2 acc) s (imap (λ i x, (i, x)) v).

(** ** DoubleEliminationMatchStrategy *)

Module DoubleEliminationMatchStrategy.

(** Format "tournamentId_WR1M0" or "tournamentId_LR2M3". *)
Definition GenerateMatchId (tournamentId : string) (bracket : BracketType)
    (round matchNumber : Z) : string :=
  let bracketPrefix := if decide (bracket = WINNERS) then "W" else "L" in
  tournamentId +:+ "_" +:+ bracketPrefix +:+ "R" +:+ pretty round
    +:+ "M" +:+ pretty matchNumber.

(** The body shared by the two bracket loops up to the bracket constant:
    one match of round [roundNumber], linked to the next round unless the
    round is the last of [nRounds]. *)
Definition bracket_match (tournamentId groupId : string) (bracket : BracketType)
    (nRounds roundIdx : nat) (roundNumber matchNum : Z) : Match :=
  let match_ := Match_default in
  let match_ := set_Id (GenerateMatchId tournamentId bracket roundNumber matchNum) match_ in
  let match_ := set_TournamentId tournamentId match_ in
  let match_ := set_GroupId groupId match_ in
  let match_ := set_Bracket bracket match_ in
  let match_ := set_RoundNumber roundNumber match_ in
  let match_ := set_MatchNumberInRound matchNum match_ in
  let match_ := set_Status PENDING match_ in
  if bool_decide (roundIdx < nRounds - 1)%nat then
    let nextMatchNum := matchNum `quot` 2 in
    set_NextMatchWinnerId
      (GenerateMatchId tournamentId bracket (roundNumber + 1) nextMatchNum) match_
  else match_.

(** Winners bracket: 16, 8, 4, 2, 1. *)
Definition CreateWinnersBracket (tournamentId groupId : string) : list Match :=
  let roundSizes := [16; 8; 4; 2; 1] in
  for_each_index roundSizes (λ roundIdx matchesInRound matches,
    let roundNumber := Z.of_nat roundIdx + 1 in
    for_range 0 matchesInRound (λ matchNum matches,
      matches ++ [bracket_match tournamentId groupId WINNERS
                    (length roundSizes) roundIdx roundNumber matchNum])
      matches) [].

(** Losers bracket: 8, 8, 4, 4, 2, 2, 1, 1, 1. *)
Definition CreateLosersBracket (tournamentId groupId : string) : list Match :=
  let roundSizes := [8; 8; 4; 4; 2; 2; 1; 1; 1] in
  for_each_index roundSizes (λ roundIdx matchesInRound matches,
    let roundNumber := Z.of_nat roundIdx + 1 in
    for_range 0 matchesInRound (λ matchNum matches,
      matches ++ [bracket_match tournamentId groupId LOSERS
                    (length roundSizes) roundIdx roundNumber matchNum])
      matches) [].

(** [winnersMatches[w].NextMatchLoserId() = losersMatches[l].Id()] *)
Definition link_loser (losersMatches : list Match) (w l : Z)
    (winnersMatches : list Match) : option (list Match) :=
  target ← vec_read losersMatches l;
  vec_modify winnersMatches w (set_NextMatchLoserId (Id target)).

(** Winners R1 (16 matches) to losers R1: two losers per match. *)
Definition LinkWinnersR1 (losersMatches winnersMatches : list Match) :=
  for_range_opt 0 16 (λ i winnersMatches,
    let loserMatchNum := i `quot` 2 in
    link_loser losersMatches i loserMatchNum winnersMatches) winnersMatches.

(** Winners R2 (8 matches) to losers R2. *)
Definition LinkWinnersR2 (losersMatches winnersMatches : list Match) :=
  for_range_opt 0 8 (λ i winnersMatches,
    link_loser losersMatches (16 + i) (8 + i) winnersMatches) winnersMatches.

(** Winners R3 (4 matches), losers offset 16. *)
Definition LinkWinnersR3 (losersMatches winnersMatches : list Match) :=
  for_range_opt 0 4 (λ i winnersMatches,
    link_loser losersMatches (24 + i) (16 + i) winnersMatches) winnersMatches.

(** Winners R4 (2 matches), losers offset 24. *)
Definition LinkWinnersR4 (losersMatches winnersMatches : list Match) :=
  for_range_opt 0 2 (λ i winnersMatches,
    link_loser losersMatches (28 + i) (24 + i) winnersMatches) winnersMatches.

(** Winners R5 (winners final), losers offset 32. *)
Definition LinkWinnersR5 (losersMatches winnersMatches : list Match) :=
  link_loser losersMatches 30 32 winnersMatches.

(** The four loops of [LinkBracketsLoserPaths], before its last statement. *)
Definition LinkLoops (winnersMatches losersMatches : list Match)
  : option (list Match) :=
  winnersMatches ← LinkWinnersR1 losersMatches winnersMatches;
  winnersMatches ← LinkWinnersR2 losersMatches winnersMatches;
  winnersMatches ← LinkWinnersR3 losersMatches winnersMatches;
  LinkWinnersR4 losersMatches winnersMatches.

(** [winnersMatches] is taken by reference: the result is its new value. *)
Definition LinkBracketsLoserPaths (winnersMatches losersMatches : list Match)
  : option (list Match) :=
  winnersMatches ← LinkLoops winnersMatches losersMatches;
  LinkWinnersR5 losersMatches winnersMatches.

Definition CreateGrandFinal (tournamentId groupId : string) : list Match :=
  let matches := [] in
  let grandFinal1 := Match_default in
  let grandFinal1 := set_Id (GenerateMatchId tournamentId WINNERS 6 0) grandFinal1 in
  let grandFinal1 := set_TournamentId tournamentId grandFinal1 in
  let grandFinal1 := set_GroupId groupId grandFinal1 in
  let grandFinal1 := set_Bracket WINNERS grandFinal1 in
  let grandFinal1 := set_RoundNumber 6 grandFinal1 in
  let grandFinal1 := set_MatchNumberInRound 0 grandFinal1 in
  let grandFinal1 := set_Status PENDING grandFinal1 in
  let grandFinal1 := set_IsGrandFinal true grandFinal1 in
  let grandFinal1 := set_IsBracketReset false grandFinal1 in
  let grandFinal2 := Match_default in
  let grandFinal2 := set_Id (GenerateMatchId tournamentId WINNERS 7 0) grandFinal2 in
  let grandFinal2 := set_TournamentId tournamentId grandFinal2 in
  let grandFinal2 := set_GroupId groupId grandFinal2 in
  let grandFinal2 := set_Bracket WINNERS grandFinal2 in
  let grandFinal2 := set_RoundNumber 7 grandFinal2 in
  let grandFinal2 := set_MatchNumberInRound 0 grandFinal2 in
  let grandFinal2 := set_Status PENDING grandFinal2 in
  let grandFinal2 := set_IsGrandFinal true grandFinal2 in
  let grandFinal2 := set_IsBracketReset true grandFinal2 in
  let grandFinal1 := set_NextMatchWinnerId (Id grandFinal2) grandFinal1 in
  let matches := matches ++ [grandFinal1] in
  let matches := matches ++ [grandFinal2] in
  matches.

(** [winnersMatches[30].NextMatchWinnerId() = grandFinalMatches[0].Id()] *)
Definition LinkWinnersFinal (grandFinalMatches winnersMatches : list Match)
  : option (list Match) :=
  gf ← vec_read grandFinalMatches 0;
  vec_modify winnersMatches 30 (set_NextMatchWinnerId (Id gf)).

(** [losersMatches[32].NextMatchWinnerId() = grandFinalMatches[0].Id()] *)
Definition LinkLosersFinal (grandFinalMatches losersMatches : list Match)
  : option (list Match) :=
  gf ← vec_read grandFinalMatches 0;
  vec_modify losersMatches 32 (set_NextMatchWinnerId (Id gf)).

Definition GenerateMatches (tournamentId groupId : string)
  : option (list Match) :=
  let allMatches := [] in
  let winnersMatches := CreateWinnersBracket tournamentId groupId in
  let losersMatches := CreateLosersBracket tournamentId groupId in
  winnersMatches ← LinkBracketsLoserPaths winnersMatches losersMatches;
  let grandFinalMatches := CreateGrandFinal tournamentId groupId in
  winnersMatches ← LinkWinnersFinal grandFinalMatches winnersMatches;
  losersMatches ← LinkLosersFinal grandFinalMatches losersMatches;
  let allMatches := allMatches ++ winnersMatches in
  let allMatches := allMatches ++ losersMatches in
  let allMatches := allMatches ++ grandFinalMatches in
  Some allMatches.

End DoubleEliminationMatchStrategy.

Import DoubleEliminationMatchStrategy.

(** ** MatchDelegate *)

Module MatchDelegate.

(** Modelled from the spec: domain/Team.hpp and domain/Group.hpp are not
    among the sources; a group "exposes a team count" through [Teams()]. *)
Record Team := mkTeam { Team_Id : string; Team_Name : string }.
Record Group := mkGroup { Teams : list Team }.

(** event/TeamAddEvent.hpp: the two fields the delegate reads. *)
Record TeamAddEvent := mkTeamAddEvent {
  tournamentId : string;
  groupId : string
}.

(** What an execution does that can be observed from outside: the lines it
    prints and the calls it makes on its collaborators, in program order. *)
Inductive Event :=
| Println (line : string)
| Call_FindByTournamentIdAndGroupId (tournamentId groupId : string)
| Call_MatchesExistForTournament (tournamentId groupId : string)
| Call_GenerateMatches (tournamentId groupId : string)
| Call_CreateBulk (matches : list Match).

(** How a call ends: it returns, it throws a [std::exception] with message
    [what], or it has left the defined behaviour of the language. *)
Inductive Completion (A : Type) :=
| Returned (a : A)
| Thrown (what : string)
| Undefined.
Arguments Returned {A} a.
Arguments Thrown {A} what.
Arguments Undefined {A}.

Definition Run (A : Type) : Type := list Event * Completion A.

Definition ret {A} (a : A) : Run A := ([], Returned a).

Definition bind {A B} (c : Run A) (k : A → Run B) : Run B :=
  match c with
  | (tr, Returned a) => let '(tr', r) := k a in (tr ++ tr', r)
  | (tr, Thrown what) => (tr, Thrown what)
  | (tr, Undefined) => (tr, Undefined)
  end.

Definition emit (e : Event) : Run unit := ([e], Returned tt).
Definition println (line : string) : Run unit := emit (Println line).
Definition throw {A} (what : string) : Run A := ([], Thrown what).
Definition undefined {A} : Run A := ([], Undefined).

(** [try { body } catch (const std::exception& ex) { handler(ex.what()) }] *)
Definition try_catch {A} (body : Run A) (handler : string → Run A) : Run A :=
  match body with
  | (tr, Thrown what) => let '(tr', r) := handler what in (tr ++ tr', r)
  | other => other
  end.

#[global] Instance Run_ret : MRet Run := @ret.
#[global] Instance Run_bind : MBind Run := λ A B k c, bind c k.

(** The collaborators.  A call on a repository answers ([inr]) or throws a
    [std::exception] with message [what] ([inl what]); the lookup answers
    [None] for the null pointer.  The strategy is held through a pointer and
    used through its [GenerateMatches] alone; [None] is an execution of it
    that is not defined. *)
Record IMatchRepository := mkMatchRepository {
  CreateBulk : list Match → string + list string;
  MatchesExistForTournament : string → string → string + bool
}.

Record GroupRepository := mkGroupRepository {
  FindByTournamentIdAndGroupId : string → string → string + option Group
}.

Record MatchDelegate := mkMatchDelegate {
  matchRepository : IMatchRepository;
  groupRepository : GroupRepository;
  matchStrategy : string → string → option (list Match)
}.

(** The constructor installs a [DoubleEliminationMatchStrategy]. *)
Definition new (matchRepository : IMatchRepository)
    (groupRepository : GroupRepository) : MatchDelegate :=
  mkMatchDelegate matchRepository groupRepository GenerateMatches.

Definition call_GenerateMatches (d : MatchDelegate) (tournamentId groupId : string)
  : Run (list Match) :=
  emit (Call_GenerateMatches tournamentId groupId);;
  match matchStrategy d tournamentId groupId with
  | Some matches => ret matches
  | None => undefined
  end.

Definition call_CreateBulk (d : MatchDelegate) (matches : list Match)
  : Run (list string) :=
  emit (Call_CreateBulk matches);;
  match CreateBulk (matchRepository d) matches with
  | inr createdIds => ret createdIds
  | inl what => throw what
  end.

Definition call_FindByTournamentIdAndGroupId (d : MatchDelegate)
    (tournamentId groupId : string) : Run (option Group) :=
  emit (Call_FindByTournamentIdAndGroupId tournamentId groupId);;
  match FindByTournamentIdAndGroupId (groupRepository d) tournamentId groupId with
  | inr group => ret group
  | inl what => throw what
  end.

Definition call_MatchesExistForTournament (d : MatchDelegate)
    (tournamentId groupId : string) : Run bool :=
  emit (Call_MatchesExistForTournament tournamentId groupId);;
  match MatchesExistForTournament (matchRepository d) tournamentId groupId with
  | inr exist_ => ret exist_
  | inl what => throw what
  end.

Definition CreateTournamentMatches (d : MatchDelegate)
    (tournamentId groupId : string) : Run unit :=
  try_catch
    (matches ← call_GenerateMatches d tournamentId groupId;
     if bool_decide (length matches ≠ 63%nat) then
       println ("ERROR: Expected 63 matches, generated " +:+ pretty (length matches))
     else
       createdIds ← call_CreateBulk d matches;
       if bool_decide (length createdIds ≠ 63%nat) then
         println ("ERROR: Expected to create 63 matches, created "
                  +:+ pretty (length createdIds))
       else
         println "Successfully saved 63 matches to database")
    (λ what, println ("ERROR creating matches: " +:+ what);; throw what).

Definition ProcessTeamAddition (d : MatchDelegate) (teamAddEvent : TeamAddEvent)
  : Run unit :=
  group ← call_FindByTournamentIdAndGroupId d
            (tournamentId teamAddEvent) (groupId teamAddEvent);
  match group with
  | None =>
    println ("Group not found for tournament: " +:+ tournamentId teamAddEvent
             +:+ ", group: " +:+ groupId teamAddEvent)
  | Some group =>
    println ("Tournament " +:+ tournamentId teamAddEvent +:+ " has "
             +:+ pretty (length (Teams group)) +:+ " teams");;
    if bool_decide (length (Teams group) = 32%nat) then
      exist_ ← call_MatchesExistForTournament d
                 (tournamentId teamAddEvent) (groupId teamAddEvent);
      if (exist_ : bool) then
        println ("Matches already exist for tournament: "
                 +:+ tournamentId teamAddEvent)
      else
        println ("Creating matches for tournament: " +:+ tournamentId teamAddEvent);;
        CreateTournamentMatches d (tournamentId teamAddEvent) (groupId teamAddEvent);;
        println ("Successfully created 63 matches for tournament: "
                 +:+ tournamentId teamAddEvent)
    else
      println ("Waiting for more teams. Current: "
               +:+ pretty (length (Teams group)) +:+ ", Required: 32")
  end.

(** Observations on a trace. *)
Definition is_generation (e : Event) : bool :=
  match e with Call_GenerateMatches _ _ => true | _ => false end.
Definition is_persistence (e : Event) : bool :=
  match e with Call_CreateBulk _ => true | _ => false end.

End MatchDelegate.

(** ** Collaborators of the scenarios *)

Module Scenario.
Import MatchDelegate.

(** A group whose roster has [n] teams. *)
Definition roster (n : nat) : Group :=
  mkGroup (replicate n (mkTeam "team-id" "team")).

Definition groups (n : nat) : GroupRepository :=
  mkGroupRepository (λ _ _, inr (Some (roster n))).

(** A match store that answers [exist_] to the existence check and reports
    [created] ids from the bulk write. *)
Definition matches (exist_ : bool) (created : nat) : IMatchRepository :=
  mkMatchRepository (λ _, inr (replicate created "match-id")) (λ _ _, inr exist_).

(** A strategy that does produce 63 matches, for the scenarios that suppose
    one. *)
Definition sixty_three : string → string → option (list Match) :=
  λ _ _, Some (replicate 63 Match_default).

Definition T1G1 : TeamAddEvent := mkTeamAddEvent "T1" "G1".

End Scenario.

(** ** Observations used by the further properties *)

(** Whether the character [c] occurs in [s]. *)
Fixpoint occurs (c : ascii) (s : string) : bool :=
  match s with
  | EmptyString => false
  | String x s => bool_decide (x = c) || occurs c s
  end.

(** How many matches of [ms] send their winner, or their loser, to the match
    with the given id. *)
Definition winner_feeders (ms : list Match) (id : string) : nat :=
  length (filter (λ m, NextMatchWinnerId m = id) ms).
Definition loser_feeders (ms : list Match) (id : string) : nat :=
  length (filter (λ m, NextMatchLoserId m = id) ms).

(** A back-reference is empty or the tournament id followed by a suffix. *)
Definition with_prefix (t : string) (o : option string) : string :=
  match o with Some s => t +:+ s | None => "" end.
Definition reference_of (s : string) : option string :=
  if decide (s = "") then None else Some s.

(** A match with its loser target forgotten, and two vectors that differ at
    most in the loser targets of their first [n] matches. *)
Definition erase_loser_target (m : Match) : Match := set_NextMatchLoserId "" m.
Definition same_but_loser_target (n : nat) (w w' : list Match) : Prop :=
  length w' = length w
  ∧ erase_loser_target <$> w' = erase_loser_target <$> w
  ∧ drop n w' = drop n w.

(** The calls on collaborators among the events of a run. *)
Definition is_call (e : MatchDelegate.Event) : bool :=
  match e with MatchDelegate.Println _ => false | _ => true end.

Module Faults.
Import MatchDelegate.

(** A group lookup that finds nothing. *)
Definition no_group : GroupRepository := mkGroupRepository (λ _ _, inr None).

(** A match store without matches whose bulk write throws. *)
Definition failing_store (what : string) : IMatchRepository :=
  mkMatchRepository (λ _, inl what) (λ _ _, inr false).

(** A strategy that produces one match too many. *)
Definition sixty_four : string → string → option (list Match) :=
  λ _ _, Some (replicate 64 Match_default).

End Faults.

(** * Properties of the strategy *)

Section StringFacts.

Lemma append_inj_l (t a b : string) : t +:+ a = t +:+ b → a = b.
Proof. apply String.app_inj. Qed.

Lemma append_nonempty (t a : string) : a ≠ "" → t +:+ a ≠ "".
Proof. destruct t; simpl; [done|discriminate]. Qed.

(** The tournament id is a prefix of every match id. *)
Lemma GenerateMatchId_prefix (t : string) (b : BracketType) (r m : Z) :
  GenerateMatchId t b r m = t +:+ GenerateMatchId "" b r m.
Proof. reflexivity. Qed.

(** The left-nested concatenation of the C++ expression is the same string. *)
Lemma string_append_assoc (a b c : string) : (a +:+ b) +:+ c = a +:+ b +:+ c.
Proof.
  induction a as [|x a IH]; [done|].
  change (String x ((a +:+ b) +:+ c) = String x (a +:+ b +:+ c)).
  by rewrite IH.
Qed.

Lemma GenerateMatchId_left_nested (t : string) (b : BracketType) (r m : Z) :
  GenerateMatchId t b r m =
  (((((t +:+ "_") +:+ (if decide (b = WINNERS) then "W" else "L")) +:+ "R")
      +:+ pretty r) +:+ "M") +:+ pretty m.
Proof. unfold GenerateMatchId. by rewrite !string_append_assoc. Qed.

End StringFacts.

Section VectorFacts.

Context {A : Type}.
Implicit Types (v : list A) (i : Z) (f : A → A).

(** An indexed read is defined exactly within the bounds of the vector. *)
Lemma vec_read_is_Some v i :
  is_Some (vec_read v i) ↔ 0 ≤ i < Z.of_nat (length v).
Proof.
  unfold vec_read. case_bool_decide as Hi.
  - rewrite lookup_lt_is_Some. lia.
  - split; [by intros [x Hx] | lia].
Qed.

Lemma vec_read_None v i :
  vec_read v i = None ↔ ¬ (0 ≤ i < Z.of_nat (length v)).
Proof. by rewrite <- vec_read_is_Some, eq_None_not_Some. Qed.

(** So is an assignment through an indexed element, and it keeps the size. *)
Lemma vec_modify_is_Some v i f :
  is_Some (vec_modify v i f) ↔ 0 ≤ i < Z.of_nat (length v).
Proof.
  rewrite <- vec_read_is_Some. unfold vec_modify.
  destruct (vec_read v i) as [x|]; simpl; split; intros [y Hy]; eauto; done.
Qed.

Lemma vec_modify_length v i f v' :
  vec_modify v i f = Some v' → length v' = length v.
Proof.
  unfold vec_modify. destruct (vec_read v i) as [x|]; simpl; [|done].
  intros [= <-]. apply length_insert.
Qed.

End VectorFacts.

(** The two statements that use index 32 need a losers vector of more than
    32 elements, whatever the vectors are. *)
Lemma LinkWinnersR5_is_Some (losersMatches winnersMatches : list Match) :
  is_Some (LinkWinnersR5 losersMatches winnersMatches)
  ↔ (32 < length losersMatches)%nat ∧ (30 < length winnersMatches)%nat.
Proof.
  unfold LinkWinnersR5, link_loser.
  pose proof (vec_read_is_Some losersMatches 32) as Hl.
  pose proof (vec_modify_is_Some winnersMatches 30) as Hw.
  destruct (vec_read losersMatches 32) as [target|]; simpl.
  - rewrite Hw. assert (0 ≤ 32 < Z.of_nat (length losersMatches)) by (apply Hl; eauto).
    lia.
  - split; [by intros [x Hx]|]. intros [H32 _].
    assert (is_Some (@None Match)) as [x Hx] by (apply Hl; lia). done.
Qed.

Lemma LinkLosersFinal_is_Some (grandFinalMatches losersMatches : list Match) :
  is_Some (LinkLosersFinal grandFinalMatches losersMatches)
  ↔ (0 < length grandFinalMatches)%nat ∧ (32 < length losersMatches)%nat.
Proof.
  unfold LinkLosersFinal.
  pose proof (vec_read_is_Some grandFinalMatches 0) as Hg.
  pose proof (vec_modify_is_Some losersMatches 32) as Hl.
  destruct (vec_read grandFinalMatches 0) as [gf|]; simpl.
  - rewrite Hl. assert (0 ≤ 0 < Z.of_nat (length grandFinalMatches)) by (apply Hg; eauto).
    lia.
  - split; [by intros [x Hx]|]. intros [H0 _].
    assert (is_Some (@None Match)) as [x Hx] by (apply Hg; lia). done.
Qed.

Ltac run := vm_compute; reflexivity.

Ltac id_neq :=
  lazymatch goal with
  | |- GenerateMatchId ?t _ _ _ ≠ GenerateMatchId ?t _ _ _ =>
    let H := fresh in
    intros H; rewrite !(GenerateMatchId_prefix t) in H;
    apply append_inj_l in H; vm_compute in H; discriminate H
  end.

Ltac each_of_list tac :=
  repeat (apply Forall_cons_2; [cbv beta; tac|]); apply Forall_nil_2.

Ltac find_in_list :=
  repeat first [apply list_elem_of_here | apply list_elem_of_further].

Section Brackets.

Variables t g : string.

Lemma CreateWinnersBracket_length : length (CreateWinnersBracket t g) = 31%nat.
Proof. run. Qed.

Lemma CreateLosersBracket_length : length (CreateLosersBracket t g) = 31%nat.
Proof. run. Qed.

Lemma CreateGrandFinal_length : length (CreateGrandFinal t g) = 2%nat.
Proof. run. Qed.

(** The four loops of the loser-path linking are defined on the two
    brackets and leave the 31 winners matches in place. *)
Lemma LinkLoops_defined :
  ∃ w, LinkLoops (CreateWinnersBracket t g) (CreateLosersBracket t g) = Some w
       ∧ length w = 31%nat.
Proof. eexists; split; [run|run]. Qed.

(** No element 32 in the losers vector. *)
Lemma losers_no_32 : vec_read (CreateLosersBracket t g) 32 = None.
Proof. run. Qed.

Lemma LinkBracketsLoserPaths_undefined :
  LinkBracketsLoserPaths (CreateWinnersBracket t g) (CreateLosersBracket t g) = None.
Proof. run. Qed.

Lemma GenerateMatches_None : GenerateMatches t g = None.
Proof. run. Qed.

(** Every id of the three vectors is the id scheme applied to the bracket,
    round and number of its match. *)
Lemma ids_follow_scheme :
  Id <$> CreateWinnersBracket t g ++ CreateLosersBracket t g ++ CreateGrandFinal t g
  = (λ m, GenerateMatchId t (Bracket m) (RoundNumber m) (MatchNumberInRound m))
      <$> CreateWinnersBracket t g ++ CreateLosersBracket t g ++ CreateGrandFinal t g.
Proof. run. Qed.

(** The ids of the three vectors taken together are pairwise distinct. *)
Lemma built_ids_NoDup :
  NoDup (Id <$> CreateWinnersBracket t g ++ CreateLosersBracket t g
                ++ CreateGrandFinal t g).
Proof.
  assert (Id <$> CreateWinnersBracket t g ++ CreateLosersBracket t g
                 ++ CreateGrandFinal t g
          = String.append t <$>
              (Id <$> CreateWinnersBracket "" "" ++ CreateLosersBracket "" ""
                      ++ CreateGrandFinal "" "")) as -> by run.
  apply (NoDup_fmap_2 _). refine (bool_decide_unpack _ _). run.
Qed.

(** Where the rounds of the losers bracket start in the flat vector. *)
Lemma losers_layout :
  (λ m, (RoundNumber m, MatchNumberInRound m)) <$> CreateLosersBracket t g =
  ((1,.) <$> seqZ 0 8) ++ ((2,.) <$> seqZ 0 8) ++ ((3,.) <$> seqZ 0 4)
  ++ ((4,.) <$> seqZ 0 4) ++ ((5,.) <$> seqZ 0 2) ++ ((6,.) <$> seqZ 0 2)
  ++ [(7, 0); (8, 0); (9, 0)].
Proof. run. Qed.

(** C1: [GenerateMatches] does not return 63 matches made of 31 winners, 30
    losers and 2 grand-final matches: the losers bracket it builds has 31
    matches (8+8+4+4+2+2+1+1+1), the three vectors hold 64 matches, and the
    call has no result at all. *)
Theorem GenerateMatches_not_63 :
  length (CreateWinnersBracket t g) = 31%nat ∧
  length (CreateLosersBracket t g) = 31%nat ∧
  length (CreateGrandFinal t g) = 2%nat ∧
  length (CreateWinnersBracket t g ++ CreateLosersBracket t g
          ++ CreateGrandFinal t g) = 64%nat ∧
  ¬ ∃ allMatches, GenerateMatches t g = Some allMatches.
Proof.
  repeat split; try run.
  intros [ms Hms]. by rewrite GenerateMatches_None in Hms.
Qed.

(** C2: the loops for winners rounds 3 and 4 index the losers vector at 16+i
    and 24+i, but these are the matches of losers rounds 3 and 5; the matches
    of losers rounds 4, 6 and 8 sit at 20+i, 26+i and 29.  For the winners
    final, offset 32 is outside the losers vector and the assignment is not
    defined. *)
Theorem loser_offsets_miss_their_rounds :
  ∃ w, LinkLoops (CreateWinnersBracket t g) (CreateLosersBracket t g) = Some w ∧
    (λ i, (λ m, (RoundNumber m, NextMatchLoserId m)) <$> vec_read w (24 + i)) <$> seqZ 0 4
      = (λ i, Some (3, GenerateMatchId t LOSERS 3 i)) <$> seqZ 0 4 ∧
    (λ i, (λ m, (RoundNumber m, NextMatchLoserId m)) <$> vec_read w (28 + i)) <$> seqZ 0 2
      = (λ i, Some (4, GenerateMatchId t LOSERS 5 i)) <$> seqZ 0 2 ∧
    (λ i, (λ m, (Id m, RoundNumber m)) <$> vec_read (CreateLosersBracket t g) (16 + i))
       <$> seqZ 0 4
      = (λ i, Some (GenerateMatchId t LOSERS 3 i, 3)) <$> seqZ 0 4 ∧
    (λ i, (λ m, (Id m, RoundNumber m)) <$> vec_read (CreateLosersBracket t g) (24 + i))
       <$> seqZ 0 2
      = (λ i, Some (GenerateMatchId t LOSERS 5 i, 5)) <$> seqZ 0 2 ∧
    (λ i, (λ m, (Id m, RoundNumber m)) <$> vec_read (CreateLosersBracket t g) (20 + i))
       <$> seqZ 0 4
      = (λ i, Some (GenerateMatchId t LOSERS 4 i, 4)) <$> seqZ 0 4 ∧
    (λ i, (λ m, (Id m, RoundNumber m)) <$> vec_read (CreateLosersBracket t g) (26 + i))
       <$> seqZ 0 2
      = (λ i, Some (GenerateMatchId t LOSERS 6 i, 6)) <$> seqZ 0 2 ∧
    Forall (λ i, GenerateMatchId t LOSERS 3 i ≠ GenerateMatchId t LOSERS 4 i) (seqZ 0 4) ∧
    Forall (λ i, GenerateMatchId t LOSERS 5 i ≠ GenerateMatchId t LOSERS 6 i) (seqZ 0 2) ∧
    (λ m, (Id m, RoundNumber m)) <$> vec_read (CreateLosersBracket t g) 29
      = Some (GenerateMatchId t LOSERS 8 0, 8) ∧
    vec_read (CreateLosersBracket t g) 32 = None ∧
    LinkWinnersR5 (CreateLosersBracket t g) w = None.
Proof.
  eexists. split; [run|].
  repeat split; try run.
  - change (seqZ 0 4) with [0; 1; 2; 3]. each_of_list ltac:(idtac; id_neq).
  - change (seqZ 0 2) with [0; 1]. each_of_list ltac:(idtac; id_neq).
Qed.

(** C3: index 32 is not within the bounds of the losers vector, which has
    31 elements: both statements that use it are undefined, and so is
    [GenerateMatches] on every input. *)
Theorem index_32_out_of_bounds :
  length (CreateLosersBracket t g) = 31%nat ∧
  vec_read (CreateLosersBracket t g) 32 = None ∧
  (∃ w, LinkLoops (CreateWinnersBracket t g) (CreateLosersBracket t g) = Some w
        ∧ LinkWinnersR5 (CreateLosersBracket t g) w = None) ∧
  LinkBracketsLoserPaths (CreateWinnersBracket t g) (CreateLosersBracket t g) = None ∧
  LinkLosersFinal (CreateGrandFinal t g) (CreateLosersBracket t g) = None ∧
  GenerateMatches t g = None.
Proof.
  repeat split; try run.
  eexists; split; run.
Qed.

(** C4: after the four loops the winners matches of rounds 1 to 4 name a
    losers match of the set, and no losers match names a loser target; but
    the winners round-5 match never receives one: it is still empty when the
    assignment meant for it leaves the losers vector. *)
Theorem winners_final_gets_no_loser_target :
  ∃ w, LinkLoops (CreateWinnersBracket t g) (CreateLosersBracket t g) = Some w ∧
    NextMatchLoserId <$> w =
      ((λ i, GenerateMatchId t LOSERS 1 (i `quot` 2)) <$> seqZ 0 16)
      ++ (GenerateMatchId t LOSERS 2 <$> seqZ 0 8)
      ++ (GenerateMatchId t LOSERS 3 <$> seqZ 0 4)
      ++ (GenerateMatchId t LOSERS 5 <$> seqZ 0 2)
      ++ [""] ∧
    Forall (λ m, NextMatchLoserId m ≠ ""
                 ∧ NextMatchLoserId m ∈ Id <$> CreateLosersBracket t g) (take 30 w) ∧
    (λ m, (Bracket m, RoundNumber m, NextMatchLoserId m)) <$> w !! 30%nat
      = Some (WINNERS, 5, "") ∧
    LinkWinnersR5 (CreateLosersBracket t g) w = None ∧
    Forall (λ m, NextMatchLoserId m = "") (CreateLosersBracket t g).
Proof.
  eexists. split; [run|].
  split; [run|]. split; [|split; [run|split; [run|]]].
  - vm_compute.
    each_of_list ltac:(split; [apply (append_nonempty t); discriminate | find_in_list]).
  - vm_compute. each_of_list ltac:(idtac; reflexivity).
Qed.

(** C5: the two grand-final matches are as described, grand final 1 leads
    to grand final 2, and the winners round-5 match can be linked to grand
    final 1; but the statement meant for the losers final writes at index 32,
    outside the losers vector, so it is not defined, and the losers round-9
    match (index 30) holds no winner target. *)
Theorem losers_final_not_linked_to_grand_final :
  (λ m, (Bracket m, RoundNumber m, MatchNumberInRound m, IsGrandFinal m, IsBracketReset m))
    <$> CreateGrandFinal t g
    = [(WINNERS, 6, 0, true, false); (WINNERS, 7, 0, true, true)] ∧
  Id <$> CreateGrandFinal t g
    = [GenerateMatchId t WINNERS 6 0; GenerateMatchId t WINNERS 7 0] ∧
  NextMatchWinnerId <$> CreateGrandFinal t g = [GenerateMatchId t WINNERS 7 0; ""] ∧
  (w ← LinkLoops (CreateWinnersBracket t g) (CreateLosersBracket t g);
   w ← LinkWinnersFinal (CreateGrandFinal t g) w;
   (λ m, (Bracket m, RoundNumber m, NextMatchWinnerId m)) <$> vec_read w 30)
    = Some (WINNERS, 5, GenerateMatchId t WINNERS 6 0) ∧
  (λ m, (Bracket m, RoundNumber m, NextMatchWinnerId m))
    <$> vec_read (CreateLosersBracket t g) 30 = Some (LOSERS, 9, "") ∧
  LinkLosersFinal (CreateGrandFinal t g) (CreateLosersBracket t g) = None ∧
  GenerateMatches t g = None.
Proof. repeat split; run. Qed.

(** C6: the two brackets are built with the stated round sizes and the
    stated advancement, and every winner target of rounds below the last
    names a match of its bracket; but [GenerateMatches] has no output in
    which these matches would appear. *)
Theorem brackets_well_formed_but_no_output :
  (λ m, (Bracket m, RoundNumber m, MatchNumberInRound m)) <$> CreateWinnersBracket t g
    = mjoin (imap (λ k n, (λ i, (WINNERS, Z.of_nat k + 1, i)) <$> seqZ 0 n)
               [16; 8; 4; 2; 1]) ∧
  (λ m, (Bracket m, RoundNumber m, MatchNumberInRound m)) <$> CreateLosersBracket t g
    = mjoin (imap (λ k n, (λ i, (LOSERS, Z.of_nat k + 1, i)) <$> seqZ 0 n)
               [8; 8; 4; 4; 2; 2; 1; 1; 1]) ∧
  NextMatchWinnerId <$> CreateWinnersBracket t g
    = (λ m, if bool_decide (RoundNumber m < 5)
            then GenerateMatchId t WINNERS (RoundNumber m + 1)
                   (MatchNumberInRound m `quot` 2)
            else "") <$> CreateWinnersBracket t g ∧
  NextMatchWinnerId <$> CreateLosersBracket t g
    = (λ m, if bool_decide (RoundNumber m < 9)
            then GenerateMatchId t LOSERS (RoundNumber m + 1)
                   (MatchNumberInRound m `quot` 2)
            else "") <$> CreateLosersBracket t g ∧
  Forall (λ m, NextMatchWinnerId m ≠ ""
               ∧ NextMatchWinnerId m ∈ Id <$> CreateWinnersBracket t g)
    (filter (λ m, RoundNumber m < 5) (CreateWinnersBracket t g)) ∧
  Forall (λ m, NextMatchWinnerId m ≠ ""
               ∧ NextMatchWinnerId m ∈ Id <$> CreateLosersBracket t g)
    (filter (λ m, RoundNumber m < 9) (CreateLosersBracket t g)) ∧
  ¬ ∃ allMatches, GenerateMatches t g = Some allMatches.
Proof.
  split; [run|]. split; [run|]. split; [run|]. split; [run|].
  split; [|split].
  - vm_compute.
    each_of_list ltac:(split; [apply (append_nonempty t); discriminate | find_in_list]).
  - vm_compute.
    each_of_list ltac:(split; [apply (append_nonempty t); discriminate | find_in_list]).
  - intros [ms Hms]. by rewrite GenerateMatches_None in Hms.
Qed.

End Brackets.

Section GroupIndependence.

Variables t g1 g2 : string.

(** C10: by the code that builds them the match ids do not depend on the
    group: for two groups of one tournament the three vectors carry the same
    ids and the linking loops leave the same ids and the same winner and loser
    targets.  But neither call of [GenerateMatches] produces a sequence of
    ids: both leave the defined behaviour at index 32. *)
Theorem group_independent_ids_but_no_output :
  Id <$> CreateWinnersBracket t g1 = Id <$> CreateWinnersBracket t g2 ∧
  Id <$> CreateLosersBracket t g1 = Id <$> CreateLosersBracket t g2 ∧
  Id <$> CreateGrandFinal t g1 = Id <$> CreateGrandFinal t g2 ∧
  (λ ms : list Match, (λ m, (Id m, NextMatchWinnerId m, NextMatchLoserId m)) <$> ms)
    <$> LinkLoops (CreateWinnersBracket t g1) (CreateLosersBracket t g1)
    = (λ ms : list Match, (λ m, (Id m, NextMatchWinnerId m, NextMatchLoserId m)) <$> ms)
    <$> LinkLoops (CreateWinnersBracket t g2) (CreateLosersBracket t g2) ∧
  is_Some (LinkLoops (CreateWinnersBracket t g1) (CreateLosersBracket t g1)) ∧
  ¬ (∃ allMatches, GenerateMatches t g1 = Some allMatches) ∧
  ¬ (∃ allMatches, GenerateMatches t g2 = Some allMatches).
Proof.
  split; [run|]. split; [run|]. split; [run|]. split; [run|].
  split; [destruct (LinkLoops_defined t g1) as (w & -> & _); by eexists|].
  split; intros [ms Hms]; by rewrite GenerateMatches_None in Hms.
Qed.

End GroupIndependence.

(** * Properties of the delegate *)

Section Delegate.
Import MatchDelegate.

Variable d : MatchDelegate.
Variable ev : TeamAddEvent.

Lemma pretty_32 : pretty 32%nat = "32".
Proof. run. Qed.

(** One step of the run: the binds of the monad and the trace
    concatenations, nothing of the strings. *)
Ltac steps :=
  lazy beta iota zeta delta
    [mbind Run_bind bind mret Run_ret ret emit println throw undefined
     try_catch app].

(** The run when the roster is complete and matches exist already. *)
Lemma ProcessTeamAddition_exist (group : Group) :
  FindByTournamentIdAndGroupId (groupRepository d) (tournamentId ev) (groupId ev) = inr (Some group) →
  length (Teams group) = 32%nat →
  MatchesExistForTournament (matchRepository d) (tournamentId ev) (groupId ev) = inr true →
  ProcessTeamAddition d ev =
    ([Call_FindByTournamentIdAndGroupId (tournamentId ev) (groupId ev);
      Println ("Tournament " +:+ tournamentId ev +:+ " has 32 teams");
      Call_MatchesExistForTournament (tournamentId ev) (groupId ev);
      Println ("Matches already exist for tournament: " +:+ tournamentId ev)],
     Returned tt).
Proof.
  intros Hfind Hlen Hexist.
  unfold ProcessTeamAddition, call_FindByTournamentIdAndGroupId,
    call_MatchesExistForTournament.
  rewrite Hfind. steps. rewrite Hlen, Hexist, pretty_32. reflexivity.
Qed.

(** The run when the roster does not have 32 teams. *)
Lemma ProcessTeamAddition_waiting (group : Group) :
  FindByTournamentIdAndGroupId (groupRepository d) (tournamentId ev) (groupId ev) = inr (Some group) →
  length (Teams group) ≠ 32%nat →
  ProcessTeamAddition d ev =
    ([Call_FindByTournamentIdAndGroupId (tournamentId ev) (groupId ev);
      Println ("Tournament " +:+ tournamentId ev +:+ " has "
               +:+ pretty (length (Teams group)) +:+ " teams");
      Println ("Waiting for more teams. Current: "
               +:+ pretty (length (Teams group)) +:+ ", Required: 32")],
     Returned tt).
Proof.
  intros Hfind Hlen.
  unfold ProcessTeamAddition, call_FindByTournamentIdAndGroupId.
  rewrite Hfind. steps. rewrite (bool_decide_eq_false_2 _ Hlen). reflexivity.
Qed.

(** The run when the roster is complete, no match exists, the strategy
    yields 63 matches and the store reports another number of ids. *)
Lemma ProcessTeamAddition_id_mismatch (group : Group)
    (matches : list Match) (createdIds : list string) :
  FindByTournamentIdAndGroupId (groupRepository d) (tournamentId ev) (groupId ev) = inr (Some group) →
  length (Teams group) = 32%nat →
  MatchesExistForTournament (matchRepository d) (tournamentId ev) (groupId ev) = inr false →
  matchStrategy d (tournamentId ev) (groupId ev) = Some matches →
  length matches = 63%nat →
  CreateBulk (matchRepository d) matches = inr createdIds →
  length createdIds ≠ 63%nat →
  ProcessTeamAddition d ev =
    ([Call_FindByTournamentIdAndGroupId (tournamentId ev) (groupId ev);
      Println ("Tournament " +:+ tournamentId ev +:+ " has 32 teams");
      Call_MatchesExistForTournament (tournamentId ev) (groupId ev);
      Println ("Creating matches for tournament: " +:+ tournamentId ev);
      Call_GenerateMatches (tournamentId ev) (groupId ev);
      Call_CreateBulk matches;
      Println ("ERROR: Expected to create 63 matches, created "
               +:+ pretty (length createdIds));
      Println ("Successfully created 63 matches for tournament: " +:+ tournamentId ev)],
     Returned tt).
Proof.
  intros Hfind Hlen Hexist Hgen Hlen63 Hbulk Hids.
  unfold ProcessTeamAddition, call_FindByTournamentIdAndGroupId,
    call_MatchesExistForTournament, CreateTournamentMatches,
    call_GenerateMatches, call_CreateBulk.
  rewrite Hfind. steps. rewrite Hlen, Hexist, pretty_32, Hgen. steps.
  rewrite Hlen63, Hbulk. steps.
  rewrite (bool_decide_eq_true_2 _ Hids). reflexivity.
Qed.

(** C8: with a complete roster and matches already stored, the delegate
    returns normally and its run holds neither a call of the generator nor a
    call of the bulk write. *)
Theorem ProcessTeamAddition_idempotent_replay (group : Group) :
  FindByTournamentIdAndGroupId (groupRepository d) (tournamentId ev) (groupId ev) = inr (Some group) →
  length (Teams group) = 32%nat →
  MatchesExistForTournament (matchRepository d) (tournamentId ev) (groupId ev) = inr true →
  (ProcessTeamAddition d ev).2 = Returned tt ∧
  existsb is_generation (ProcessTeamAddition d ev).1 = false ∧
  existsb is_persistence (ProcessTeamAddition d ev).1 = false ∧
  Println ("Matches already exist for tournament: " +:+ tournamentId ev)
    ∈ (ProcessTeamAddition d ev).1.
Proof.
  intros Hfind Hlen Hexist.
  rewrite (ProcessTeamAddition_exist group Hfind Hlen Hexist).
  repeat split. unfold fst. find_in_list.
Qed.

(** C9: with a roster of another size than 32 the delegate returns normally,
    calls neither the generator nor the bulk write, and reports that it is
    waiting. *)
Theorem ProcessTeamAddition_waits_unless_32 (group : Group) :
  FindByTournamentIdAndGroupId (groupRepository d) (tournamentId ev) (groupId ev) = inr (Some group) →
  length (Teams group) ≠ 32%nat →
  (ProcessTeamAddition d ev).2 = Returned tt ∧
  existsb is_generation (ProcessTeamAddition d ev).1 = false ∧
  existsb is_persistence (ProcessTeamAddition d ev).1 = false ∧
  Println ("Waiting for more teams. Current: "
           +:+ pretty (length (Teams group)) +:+ ", Required: 32")
    ∈ (ProcessTeamAddition d ev).1.
Proof.
  intros Hfind Hlen.
  rewrite (ProcessTeamAddition_waiting group Hfind Hlen).
  repeat split. unfold fst. find_in_list.
Qed.

(** When the store reports a number of ids other than 63, the delegate
    prints the error and then, all the same, that 63 matches were
    successfully created; it returns normally. *)
Lemma ProcessTeamAddition_claims_success_after_error (group : Group)
    (matches : list Match) (createdIds : list string) :
  FindByTournamentIdAndGroupId (groupRepository d) (tournamentId ev) (groupId ev) = inr (Some group) →
  length (Teams group) = 32%nat →
  MatchesExistForTournament (matchRepository d) (tournamentId ev) (groupId ev) = inr false →
  matchStrategy d (tournamentId ev) (groupId ev) = Some matches →
  length matches = 63%nat →
  CreateBulk (matchRepository d) matches = inr createdIds →
  length createdIds ≠ 63%nat →
  (ProcessTeamAddition d ev).2 = Returned tt ∧
  Println ("ERROR: Expected to create 63 matches, created "
           +:+ pretty (length createdIds))
    ∈ (ProcessTeamAddition d ev).1 ∧
  Println ("Successfully created 63 matches for tournament: " +:+ tournamentId ev)
    ∈ (ProcessTeamAddition d ev).1.
Proof.
  intros Hfind Hlen Hexist Hgen Hlen63 Hbulk Hids.
  rewrite (ProcessTeamAddition_id_mismatch group matches createdIds
             Hfind Hlen Hexist Hgen Hlen63 Hbulk Hids).
  repeat split; unfold fst; find_in_list.
Qed.


End Delegate.

Section Scenarios.
Import MatchDelegate Scenario.

(** The delegate as its constructor builds it cannot get that far: with a
    complete roster and no stored match, its run ends in the strategy, which
    is not defined. *)
Lemma ProcessTeamAddition_new_undefined (created : nat) :
  ProcessTeamAddition (new (Scenario.matches false created) (groups 32)) T1G1 =
    ([Call_FindByTournamentIdAndGroupId "T1" "G1";
      Println "Tournament T1 has 32 teams";
      Call_MatchesExistForTournament "T1" "G1";
      Println "Creating matches for tournament: T1";
      Call_GenerateMatches "T1" "G1"],
     Undefined).
Proof. run. Qed.

Lemma ProcessTeamAddition_idempotent_replay_witness :
  let d := new (Scenario.matches true 63) (groups 32) in
  (ProcessTeamAddition d T1G1).2 = Returned tt ∧
  existsb is_generation (ProcessTeamAddition d T1G1).1 = false ∧
  existsb is_persistence (ProcessTeamAddition d T1G1).1 = false ∧
  Println "Matches already exist for tournament: T1" ∈ (ProcessTeamAddition d T1G1).1.
Proof.
  pose proof (ProcessTeamAddition_idempotent_replay
                (new (Scenario.matches true 63) (groups 32)) T1G1 (roster 32)
                eq_refl eq_refl eq_refl) as H.
  vm_compute in H. vm_compute. exact H.
Defined.

Lemma ProcessTeamAddition_waits_unless_32_witness :
  let d := new (Scenario.matches false 63) (groups 31) in
  (ProcessTeamAddition d T1G1).2 = Returned tt ∧
  existsb is_generation (ProcessTeamAddition d T1G1).1 = false ∧
  existsb is_persistence (ProcessTeamAddition d T1G1).1 = false ∧
  Println "Waiting for more teams. Current: 31, Required: 32"
    ∈ (ProcessTeamAddition d T1G1).1.
Proof.
  pose proof (ProcessTeamAddition_waits_unless_32
                (new (Scenario.matches false 63) (groups 31)) T1G1 (roster 31)
                eq_refl ltac:(vm_compute; lia)) as H.
  vm_compute in H. vm_compute. exact H.
Defined.



End Scenarios.

(** * Further properties of the strategy *)

(** ** Match ids *)

Section MatchIds.

Lemma occurs_app c a b : occurs c (a +:+ b) = occurs c a || occurs c b.
Proof.
  induction a as [|x a IH]; [done|].
  change (occurs c (String x (a +:+ b)) = occurs c (String x a) || occurs c b).
  cbn [occurs]. rewrite IH. by rewrite orb_assoc.
Qed.

Lemma split_at_last c a b x y :
  occurs c x = false → occurs c y = false →
  a +:+ String c x = b +:+ String c y → a = b ∧ x = y.
Proof.
  intros Hx Hy. revert b. induction a as [|d a IH]; intros [|e b] H.
  - by injection H as ->.
  - exfalso. injection H as -> ->.
    rewrite occurs_app in Hx. cbn [occurs] in Hx.
    rewrite bool_decide_eq_true_2 in Hx by done.
    by rewrite orb_true_r in Hx.
  - exfalso. injection H as -> <-.
    rewrite occurs_app in Hy. cbn [occurs] in Hy.
    rewrite bool_decide_eq_true_2 in Hy by done.
    by rewrite orb_true_r in Hy.
  - injection H as -> H. apply IH in H as [-> ->]. done.
Qed.

Lemma pretty_N_go_occurs c x s :
  (∀ n, pretty_N_char n ≠ c) → occurs c (pretty_N_go x s) = occurs c s.
Proof.
  intros Hc. revert s. induction (N.lt_wf_0 x) as [x _ IH]; intros s.
  assert (x = 0 ∨ 0 < x)%N as [->|Hpos] by lia.
  - by rewrite pretty_N_go_0.
  - rewrite pretty_N_go_step by done. rewrite IH by (by apply N.div_lt).
    cbn [occurs]. by rewrite bool_decide_eq_false_2 by apply Hc.
Qed.

Lemma pretty_Z_occurs c (z : Z) :
  (∀ n, pretty_N_char n ≠ c) → c ≠ "-"%char → occurs c (pretty z) = false.
Proof.
  intros Hc Hdash.
  assert (∀ p : positive, occurs c (pretty p) = false) as Hpos.
  { intros p. unfold pretty, pretty_positive, pretty, pretty_N.
    case_decide; [done|]. by rewrite pretty_N_go_occurs. }
  destruct z as [|p|p]; unfold pretty, pretty_Z.
  - cbn [occurs]. rewrite bool_decide_eq_false_2; [done|].
    intros <-. by apply (Hc 0%N).
  - apply Hpos.
  - change (occurs c (String "-" (pretty p)) = false). cbn [occurs].
    rewrite Hpos. by rewrite bool_decide_eq_false_2 by done.
Qed.

Lemma not_digit_M n : pretty_N_char n ≠ "M"%char.
Proof. unfold pretty_N_char. by repeat case_match. Qed.
Lemma not_digit_R n : pretty_N_char n ≠ "R"%char.
Proof. unfold pretty_N_char. by repeat case_match. Qed.

Lemma GenerateMatchId_parts t b r m :
  GenerateMatchId t b r m =
  ((t +:+ String "_" (if decide (b = WINNERS) then "W" else "L"))
     +:+ String "R" (pretty r)) +:+ String "M" (pretty m).
Proof.
  unfold GenerateMatchId. rewrite !string_append_assoc. by destruct b.
Qed.

Lemma GenerateMatchId_eq_inv t1 t2 b1 b2 r1 r2 m1 m2 :
  GenerateMatchId t1 b1 r1 m1 = GenerateMatchId t2 b2 r2 m2 →
  t1 = t2 ∧ b1 = b2 ∧ r1 = r2 ∧ m1 = m2.
Proof.
  rewrite !GenerateMatchId_parts. intros H.
  apply split_at_last in H as [H Hm];
    [|by apply pretty_Z_occurs; [apply not_digit_M|]..].
  apply split_at_last in H as [H Hr];
    [|by apply pretty_Z_occurs; [apply not_digit_R|]..].
  apply split_at_last in H as [Ht Hb]; [|by destruct b1|by destruct b2].
  apply (inj pretty) in Hm, Hr.
  repeat split; [done| |done..]. by destruct b1, b2.
Qed.

(** X1: the id scheme is injective: two ids are equal only for the same
    tournament id, bracket, round and match number. *)
Theorem GenerateMatchId_inj t1 t2 b1 b2 r1 r2 m1 m2 :
  GenerateMatchId t1 b1 r1 m1 = GenerateMatchId t2 b2 r2 m2 →
  t1 = t2 ∧ b1 = b2 ∧ r1 = r2 ∧ m1 = m2.
Proof. apply GenerateMatchId_eq_inv. Qed.

Lemma GenerateMatchId_inj_witness :
  GenerateMatchId "T1" LOSERS 2 3 = GenerateMatchId "T1" LOSERS 2 3
  ∧ ("T1" = "T1" ∧ LOSERS = LOSERS ∧ 2 = 2 ∧ 3 = 3).
Proof.
  split; [reflexivity|].
  apply (GenerateMatchId_inj "T1" "T1" LOSERS LOSERS 2 2 3 3). reflexivity.
Defined.

(** X3: matches built for different tournaments never share an id, whatever
    the groups. *)
Theorem ids_disjoint_across_tournaments (t1 t2 g1 g2 : string) :
  t1 ≠ t2 →
  Forall (λ id, id ∉ Id <$> CreateWinnersBracket t2 g2 ++ CreateLosersBracket t2 g2
                            ++ CreateGrandFinal t2 g2)
    (Id <$> CreateWinnersBracket t1 g1 ++ CreateLosersBracket t1 g1
            ++ CreateGrandFinal t1 g1).
Proof.
  intros Ht. rewrite (ids_follow_scheme t1), (ids_follow_scheme t2).
  apply Forall_fmap, Forall_forall. intros m1 _. unfold compose; cbv beta.
  intros (m2 & Heq & _)%list_elem_of_fmap.
  by apply GenerateMatchId_eq_inv in Heq as [? _].
Qed.

Lemma ids_disjoint_across_tournaments_witness :
  "T1" ≠ "T2"
  ∧ Forall (λ id, id ∉ Id <$> CreateWinnersBracket "T2" "G1" ++ CreateLosersBracket "T2" "G1"
                              ++ CreateGrandFinal "T2" "G1")
      (Id <$> CreateWinnersBracket "T1" "G1" ++ CreateLosersBracket "T1" "G1"
              ++ CreateGrandFinal "T1" "G1").
Proof.
  split; [discriminate|].
  apply (ids_disjoint_across_tournaments "T1" "T2" "G1" "G1"). discriminate.
Defined.

End MatchIds.

(** ** Counting feeders *)

Section Feeders.

Lemma with_prefix_eq t a o : a ≠ "" → with_prefix t o = t +:+ a ↔ o = Some a.
Proof.
  intros Ha. destruct o as [s|]; simpl.
  - split; [intros H%append_inj_l; by subst | by intros [= ->]].
  - split; [|done]. intros H. symmetry in H. by apply append_nonempty in H.
Qed.

Lemma count_with_prefix t a (ol : list (option string)) :
  a ≠ "" →
  length (filter (λ s, s = t +:+ a) (with_prefix t <$> ol))
  = length (filter (λ o, o = Some a) ol).
Proof.
  intros Ha. induction ol as [|o ol IH]; [done|].
  rewrite fmap_cons, !filter_cons.
  destruct (decide (with_prefix t o = t +:+ a)) as [H|H];
    destruct (decide (o = Some a)) as [H'|H']; simpl; rewrite ?IH; try done.
  - by apply with_prefix_eq in H.
  - by apply (with_prefix_eq t) in H'.
Qed.

Lemma feeders_fmap (f : Match → string) (ms : list Match) id :
  length (filter (λ m, f m = id) ms) = length (filter (λ s, s = id) (f <$> ms)).
Proof.
  induction ms as [|m ms IH]; [done|].
  rewrite fmap_cons, !filter_cons. destruct (decide (f m = id)); simpl; by rewrite IH.
Qed.

Lemma feeders_table t (f : Match → string) (ms targets : list Match)
    (ol : list (option string)) (sl : list string) :
  f <$> ms = with_prefix t <$> ol →
  Id <$> targets = String.append t <$> sl →
  Forall (λ s, s ≠ "") sl →
  (λ m, length (filter (λ x, f x = Id m) ms)) <$> targets
  = (λ s, length (filter (λ o, o = Some s) ol)) <$> sl.
Proof.
  intros Hms Htargets Hsl.
  transitivity ((λ id, length (filter (λ s, s = id) (f <$> ms))) <$> (Id <$> targets)).
  { rewrite <- list_fmap_compose. apply list_fmap_ext. intros _ m _. simpl.
    apply feeders_fmap. }
  rewrite Hms, Htargets, <- list_fmap_compose.
  apply Forall_fmap_ext_1. eapply Forall_impl; [exact Hsl|].
  intros s Hs. simpl. by apply count_with_prefix.
Qed.

End Feeders.

(** ** Shape of the brackets *)

Section BracketShape.

Variables t g : string.

(** X2: the 64 matches built for one tournament have pairwise distinct,
    non-empty ids, for every tournament id, the empty one included. *)
Theorem built_ids_distinct_nonempty :
  NoDup (Id <$> CreateWinnersBracket t g ++ CreateLosersBracket t g
                ++ CreateGrandFinal t g)
  ∧ Forall (λ id, id ≠ "")
      (Id <$> CreateWinnersBracket t g ++ CreateLosersBracket t g
              ++ CreateGrandFinal t g).
Proof.
  split; [apply built_ids_NoDup|].
  rewrite ids_follow_scheme. apply Forall_fmap, Forall_forall.
  intros m _. unfold compose; cbv beta. rewrite GenerateMatchId_prefix. apply append_nonempty.
  unfold GenerateMatchId. by destruct (decide _).
Qed.

(** X4: every match built carries the tournament id and the group id it was
    built for, and is pending. *)
Theorem built_matches_scoped :
  (λ m, (TournamentId m, GroupId m, Status m))
    <$> CreateWinnersBracket t g ++ CreateLosersBracket t g ++ CreateGrandFinal t g
  = replicate 64 (t, g, PENDING).
Proof. run. Qed.

(** X5: through the winner targets the winners bracket is a complete binary
    tree: no match feeds a round-1 match, and exactly two matches feed each
    match of rounds 2 to 5. *)
Theorem winners_bracket_binary_tree :
  (λ m, winner_feeders (CreateWinnersBracket t g) (Id m)) <$> CreateWinnersBracket t g
  = replicate 16 0%nat ++ replicate 15 2%nat.
Proof.
  unfold winner_feeders.
  rewrite (feeders_table t NextMatchWinnerId _ _
             (reference_of <$> (NextMatchWinnerId <$> CreateWinnersBracket "" ""))
             (Id <$> CreateWinnersBracket "" "")).
  - run.
  - run.
  - run.
  - refine (bool_decide_unpack _ _). vm_compute. exact I.
Qed.

(** X6: the feeders of the losers bracket as the code links it.  From inside
    the bracket, matches 4 to 7 of round 2, 2 and 3 of round 4 and 1 of round 6
    receive no winner; from the winners bracket, rounds 1, 2, 3 and 5 receive
    losers.  Round 4 matches 2 and 3 and round 6 match 1 receive nobody. *)
Theorem losers_bracket_feeders :
  ∃ w, LinkLoops (CreateWinnersBracket t g) (CreateLosersBracket t g) = Some w ∧
    (λ m, winner_feeders (CreateLosersBracket t g) (Id m)) <$> CreateLosersBracket t g
    = (replicate 8 0 ++ replicate 4 2 ++ replicate 4 0 ++ replicate 4 2
       ++ [2; 2; 0; 0] ++ [2; 2] ++ [2; 0] ++ [2; 1; 1])%nat ∧
    (λ m, loser_feeders w (Id m)) <$> CreateLosersBracket t g
    = (replicate 8 2 ++ replicate 8 1 ++ replicate 4 1 ++ replicate 4 0
       ++ [1; 1] ++ [0; 0] ++ [0; 0; 0])%nat.
Proof.
  eexists. split; [run|]. unfold winner_feeders, loser_feeders. split.
  - rewrite (feeders_table t NextMatchWinnerId _ _
               (reference_of <$> (NextMatchWinnerId <$> CreateLosersBracket "" ""))
               (Id <$> CreateLosersBracket "" ""));
      [|run|run|refine (bool_decide_unpack _ _); vm_compute; exact I].
    run.
  - rewrite (feeders_table t NextMatchLoserId _ _
               (reference_of <$> (NextMatchLoserId <$>
                  default [] (LinkLoops (CreateWinnersBracket "" "")
                                (CreateLosersBracket "" ""))))
               (Id <$> CreateLosersBracket "" ""));
      [|run|run|refine (bool_decide_unpack _ _); vm_compute; exact I].
    run.
Qed.

End BracketShape.

(** ** Linking on arbitrary vectors *)

Section Loops.
Context {S : Type}.
Implicit Types (body : Z → S → option S) (Inv : S → Prop) (G : Z → Prop).

Lemma foldl_bind_None body (ixs : list Z) :
  foldl (λ acc i, acc ≫= body i) None ixs = None.
Proof. by induction ixs. Qed.

(** A loop keeps what each of its iterations keeps. *)
Lemma for_range_opt_preserves Inv body lo hi s s' :
  (∀ i s s', lo ≤ i < hi → Inv s → body i s = Some s' → Inv s') →
  Inv s → for_range_opt lo hi body s = Some s' → Inv s'.
Proof.
  unfold for_range_opt. intros Hstep.
  assert (Forall (λ i, lo ≤ i < hi) (seqZ lo (hi - lo))) as Hin.
  { apply Forall_seqZ. lia. }
  revert s. induction Hin as [|i ixs Hi _ IH]; intros s Hs; simpl.
  - by intros [= <-].
  - destruct (body i s) as [s1|] eqn:Hb; simpl.
    + apply IH. by eapply Hstep.
    + by rewrite foldl_bind_None.
Qed.

(** A loop is defined exactly when each iteration is, if whether an
    iteration is defined depends on the state only through the invariant. *)
Lemma for_range_opt_is_Some Inv G body lo hi s :
  (∀ i s, lo ≤ i < hi → Inv s → is_Some (body i s) ↔ G i) →
  (∀ i s s', lo ≤ i < hi → Inv s → body i s = Some s' → Inv s') →
  Inv s →
  is_Some (for_range_opt lo hi body s) ↔ ∀ i, lo ≤ i < hi → G i.
Proof.
  unfold for_range_opt. intros Hdef Hstep.
  replace (∀ i, lo ≤ i < hi → G i) with (∀ i, lo ≤ i < lo + (hi - lo) → G i)
    by (by rewrite Zplus_minus).
  rewrite <- Forall_seqZ.
  assert (Forall (λ i, lo ≤ i < hi) (seqZ lo (hi - lo))) as Hin.
  { apply Forall_seqZ. lia. }
  revert s. induction Hin as [|i ixs Hi _ IH]; intros s Hs; simpl.
  - split; [by constructor|eauto].
  - rewrite Forall_cons, <- (Hdef i s) by done.
    destruct (body i s) as [s1|] eqn:Hb; simpl.
    + rewrite IH by (by eapply Hstep). split; [eauto|tauto].
    + rewrite foldl_bind_None. split; [by intros [? ?]|by intros [[? ?] _]].
Qed.
End Loops.

Section Linking.
Implicit Types (w l : list Match).

Lemma link_loser_is_Some l wi li w :
  is_Some (link_loser l wi li w)
  ↔ 0 ≤ li < Z.of_nat (length l) ∧ 0 ≤ wi < Z.of_nat (length w).
Proof.
  unfold link_loser. rewrite <- vec_read_is_Some, <- (vec_modify_is_Some w wi
    (set_NextMatchLoserId (default "" (Id <$> vec_read l li)))).
  destruct (vec_read l li) as [target|]; simpl.
  - split; [eauto|tauto].
  - split; [by intros [? ?]|by intros [[? ?] _]].
Qed.

Lemma link_loser_frame l wi li w w' (n : nat) :
  0 ≤ wi < Z.of_nat n →
  link_loser l wi li w = Some w' →
  length w' = length w ∧ erase_loser_target <$> w' = erase_loser_target <$> w
  ∧ drop n w' = drop n w.
Proof.
  unfold link_loser, vec_modify, vec_read. intros Hwi H.
  destruct (bool_decide (0 ≤ li)); [|done].
  destruct (l !! Z.to_nat li) as [target|]; [|done]. simpl in H.
  rewrite bool_decide_eq_true_2 in H by lia.
  destruct (w !! Z.to_nat wi) as [x|] eqn:Hx; [|done]. injection H as <-.
  split; [apply length_insert|]. split.
  - rewrite list_fmap_insert. apply list_insert_id.
    rewrite list_lookup_fmap, Hx. done.
  - apply drop_insert_lt. lia.
Qed.
End Linking.

Section LinkingLoops.
Implicit Types (w l : list Match).

Lemma linking_loop_is_Some l (wi li : Z → Z) (k : Z) w :
  is_Some (for_range_opt 0 k (λ i w, link_loser l (wi i) (li i) w) w)
  ↔ ∀ i, 0 ≤ i < k →
      0 ≤ li i < Z.of_nat (length l) ∧ 0 ≤ wi i < Z.of_nat (length w).
Proof.
  apply (for_range_opt_is_Some (λ w0, length w0 = length w)); [| |done].
  - intros i w0 _ Hlen. by rewrite link_loser_is_Some, Hlen.
  - intros i w0 w1 _ Hlen Hlink.
    assert (is_Some (link_loser l (wi i) (li i) w0)) as Hsome by eauto.
    apply link_loser_is_Some in Hsome as [_ Hwi].
    apply (link_loser_frame _ _ _ _ _ (length w0)) in Hlink as (-> & _); done.
Qed.

Lemma linking_loop_frame (n : nat) l (wi li : Z → Z) (k : Z) w w' :
  (∀ i, 0 ≤ i < k → wi i < Z.of_nat n) →
  for_range_opt 0 k (λ i w, link_loser l (wi i) (li i) w) w = Some w' →
  same_but_loser_target n w w'.
Proof.
  intros Hwi. apply (for_range_opt_preserves (same_but_loser_target n w)).
  - intros i w0 w1 Hi (Hlen & Herase & Hdrop) Hlink.
    assert (is_Some (link_loser l (wi i) (li i) w0)) as Hsome by eauto.
    apply link_loser_is_Some in Hsome as [_ Hb].
    apply (link_loser_frame _ _ _ _ _ n) in Hlink as (Hlen' & Herase' & Hdrop').
    + split; [congruence|]. split; congruence.
    + specialize (Hwi i Hi). lia.
  - done.
Qed.

Lemma same_but_loser_target_trans n w1 w2 w3 :
  same_but_loser_target n w1 w2 → same_but_loser_target n w2 w3 →
  same_but_loser_target n w1 w3.
Proof. intros (?&?&?) (?&?&?). split; [congruence|]. split; congruence. Qed.

Lemma half_in_range (i k : Z) : 0 ≤ i < 2 * k → 0 ≤ i `quot` 2 < k.
Proof.
  intros Hi. rewrite Z.quot_div_nonneg by lia. split.
  - apply Z.div_pos; lia.
  - apply Z.div_lt_upper_bound; lia.
Qed.

Lemma LinkWinnersR1_is_Some l w :
  is_Some (LinkWinnersR1 l w) ↔ (8 ≤ length l)%nat ∧ (16 ≤ length w)%nat.
Proof.
  unfold LinkWinnersR1.
  rewrite (linking_loop_is_Some l (λ i, i) (λ i, i `quot` 2)). split.
  - intros H. specialize (H 15 ltac:(lia)).
    change (15 `quot` 2) with 7 in H. lia.
  - intros [Hl Hw] i Hi. pose proof (half_in_range i 8 ltac:(lia)). lia.
Qed.

Lemma LinkWinnersR2_is_Some l w :
  is_Some (LinkWinnersR2 l w) ↔ (16 ≤ length l)%nat ∧ (24 ≤ length w)%nat.
Proof.
  unfold LinkWinnersR2.
  rewrite (linking_loop_is_Some l (λ i, 16 + i) (λ i, 8 + i)). split.
  - intros H. specialize (H 7 ltac:(lia)). lia.
  - intros [Hl Hw] i Hi. lia.
Qed.

Lemma LinkWinnersR3_is_Some l w :
  is_Some (LinkWinnersR3 l w) ↔ (20 ≤ length l)%nat ∧ (28 ≤ length w)%nat.
Proof.
  unfold LinkWinnersR3.
  rewrite (linking_loop_is_Some l (λ i, 24 + i) (λ i, 16 + i)). split.
  - intros H. specialize (H 3 ltac:(lia)). lia.
  - intros [Hl Hw] i Hi. lia.
Qed.

Lemma LinkWinnersR4_is_Some l w :
  is_Some (LinkWinnersR4 l w) ↔ (26 ≤ length l)%nat ∧ (30 ≤ length w)%nat.
Proof.
  unfold LinkWinnersR4.
  rewrite (linking_loop_is_Some l (λ i, 28 + i) (λ i, 24 + i)). split.
  - intros H. specialize (H 1 ltac:(lia)). lia.
  - intros [Hl Hw] i Hi. lia.
Qed.

Lemma LinkLoops_same_but_loser_target w l w' :
  LinkLoops w l = Some w' → same_but_loser_target 30 w w'.
Proof.
  unfold LinkLoops. intros H.
  destruct (LinkWinnersR1 l w) as [w1|] eqn:H1; simpl in H; [|done].
  destruct (LinkWinnersR2 l w1) as [w2|] eqn:H2; simpl in H; [|done].
  destruct (LinkWinnersR3 l w2) as [w3|] eqn:H3; simpl in H; [|done].
  apply (linking_loop_frame 30 l (λ i, i) (λ i, i `quot` 2)) in H1; [|intros; lia].
  apply (linking_loop_frame 30 l (λ i, 16 + i) (λ i, 8 + i)) in H2; [|intros; lia].
  apply (linking_loop_frame 30 l (λ i, 24 + i) (λ i, 16 + i)) in H3; [|intros; lia].
  apply (linking_loop_frame 30 l (λ i, 28 + i) (λ i, 24 + i)) in H; [|intros; lia].
  exact (same_but_loser_target_trans _ _ _ _
           (same_but_loser_target_trans _ _ _ _
              (same_but_loser_target_trans _ _ _ _ H1 H2) H3) H).
Qed.

(** X7: on any two vectors, the four linking loops keep the size of the
    winners vector, change no field other than the loser target, and leave
    every match from index 30 on as it was. *)
Theorem LinkLoops_frame w l w' :
  LinkLoops w l = Some w' →
  length w' = length w
  ∧ erase_loser_target <$> w' = erase_loser_target <$> w
  ∧ drop 30 w' = drop 30 w.
Proof. apply LinkLoops_same_but_loser_target. Qed.

Lemma LinkLoops_frame_witness :
  let w := CreateWinnersBracket "T1" "G1" in
  let l := CreateLosersBracket "T1" "G1" in
  let w' := default [] (LinkLoops w l) in
  LinkLoops w l = Some w'
  ∧ length w' = length w
  ∧ erase_loser_target <$> w' = erase_loser_target <$> w
  ∧ drop 30 w' = drop 30 w.
Proof.
  intros w l w'. split; [vm_compute; reflexivity|].
  apply (LinkLoops_frame w l w'). vm_compute; reflexivity.
Defined.

Lemma LinkLoops_is_Some w l :
  is_Some (LinkLoops w l) ↔ (30 ≤ length w)%nat ∧ (26 ≤ length l)%nat.
Proof.
  unfold LinkLoops.
  pose proof (LinkWinnersR1_is_Some l w) as S1.
  destruct (LinkWinnersR1 l w) as [w1|] eqn:H1; simpl;
    [|split; [by intros [? ?]|intros [? ?]; destruct S1 as [_ S1];
       destruct S1 as [? ?]; [lia|done]]].
  apply (linking_loop_frame 30 l (λ i, i) (λ i, i `quot` 2)) in H1 as (L1&_&_);
    [|intros; lia].
  pose proof (LinkWinnersR2_is_Some l w1) as S2.
  destruct (LinkWinnersR2 l w1) as [w2|] eqn:H2; simpl;
    [|split; [by intros [? ?]|intros [? ?]; destruct S2 as [_ S2];
       destruct S2 as [? ?]; [lia|done]]].
  apply (linking_loop_frame 30 l (λ i, 16 + i) (λ i, 8 + i)) in H2 as (L2&_&_);
    [|intros; lia].
  pose proof (LinkWinnersR3_is_Some l w2) as S3.
  destruct (LinkWinnersR3 l w2) as [w3|] eqn:H3; simpl;
    [|split; [by intros [? ?]|intros [? ?]; destruct S3 as [_ S3];
       destruct S3 as [? ?]; [lia|done]]].
  apply (linking_loop_frame 30 l (λ i, 24 + i) (λ i, 16 + i)) in H3 as (L3&_&_);
    [|intros; lia].
  rewrite LinkWinnersR4_is_Some. lia.
Qed.

(** X8: on any two vectors, [LinkBracketsLoserPaths] stays within bounds
    exactly when there are at least 31 winners and at least 33 losers
    matches. *)
Theorem LinkBracketsLoserPaths_is_Some w l :
  is_Some (LinkBracketsLoserPaths w l)
  ↔ (31 ≤ length w)%nat ∧ (33 ≤ length l)%nat.
Proof.
  unfold LinkBracketsLoserPaths.
  pose proof (LinkLoops_is_Some w l) as S.
  destruct (LinkLoops w l) as [w'|] eqn:H; simpl.
  - apply LinkLoops_same_but_loser_target in H as (Hlen & _).
    rewrite LinkWinnersR5_is_Some, Hlen. lia.
  - split; [by intros [? ?]|]. intros [? ?]. destruct S as [_ S].
    destruct S as [? ?]; [lia|done].
Qed.
End LinkingLoops.

(** * Further properties of the delegate *)

Section DelegateRuns.
Import MatchDelegate.

Variable d : MatchDelegate.
Variable ev : TeamAddEvent.

Ltac run_steps :=
  lazy beta iota zeta delta
    [mbind Run_bind bind mret Run_ret ret emit println throw undefined
     try_catch app].

Ltac unfold_run :=
  unfold ProcessTeamAddition, call_FindByTournamentIdAndGroupId,
    call_MatchesExistForTournament, CreateTournamentMatches,
    call_GenerateMatches, call_CreateBulk.

(** X9: when the group is not found the delegate says so and returns, having
    made no other call. *)
Theorem ProcessTeamAddition_group_not_found :
  FindByTournamentIdAndGroupId (groupRepository d) (tournamentId ev) (groupId ev) = inr None →
  ProcessTeamAddition d ev =
    ([Call_FindByTournamentIdAndGroupId (tournamentId ev) (groupId ev);
      Println ("Group not found for tournament: " +:+ tournamentId ev
               +:+ ", group: " +:+ groupId ev)],
     Returned tt).
Proof. intros Hfind. unfold_run. rewrite Hfind. reflexivity. Qed.

(** X10: an exception of the bulk write is reported and thrown again; the
    success line is not printed. *)
Theorem ProcessTeamAddition_bulk_throws (group : Group)
    (matches : list Match) (what : string) :
  FindByTournamentIdAndGroupId (groupRepository d) (tournamentId ev) (groupId ev) = inr (Some group) →
  length (Teams group) = 32%nat →
  MatchesExistForTournament (matchRepository d) (tournamentId ev) (groupId ev) = inr false →
  matchStrategy d (tournamentId ev) (groupId ev) = Some matches →
  length matches = 63%nat →
  CreateBulk (matchRepository d) matches = inl what →
  ProcessTeamAddition d ev =
    ([Call_FindByTournamentIdAndGroupId (tournamentId ev) (groupId ev);
      Println ("Tournament " +:+ tournamentId ev +:+ " has 32 teams");
      Call_MatchesExistForTournament (tournamentId ev) (groupId ev);
      Println ("Creating matches for tournament: " +:+ tournamentId ev);
      Call_GenerateMatches (tournamentId ev) (groupId ev);
      Call_CreateBulk matches;
      Println ("ERROR creating matches: " +:+ what)],
     Thrown what).
Proof.
  intros Hfind Hlen Hexist Hgen Hlen63 Hbulk. unfold_run.
  rewrite Hfind. run_steps. rewrite Hlen, Hexist, pretty_32, Hgen. run_steps.
  rewrite Hlen63, Hbulk. reflexivity.
Qed.

(** X11: when the strategy does not return 63 matches nothing is written:
    the delegate prints the error, and the success line after it. *)
Theorem ProcessTeamAddition_wrong_count (group : Group) (matches : list Match) :
  FindByTournamentIdAndGroupId (groupRepository d) (tournamentId ev) (groupId ev) = inr (Some group) →
  length (Teams group) = 32%nat →
  MatchesExistForTournament (matchRepository d) (tournamentId ev) (groupId ev) = inr false →
  matchStrategy d (tournamentId ev) (groupId ev) = Some matches →
  length matches ≠ 63%nat →
  ProcessTeamAddition d ev =
    ([Call_FindByTournamentIdAndGroupId (tournamentId ev) (groupId ev);
      Println ("Tournament " +:+ tournamentId ev +:+ " has 32 teams");
      Call_MatchesExistForTournament (tournamentId ev) (groupId ev);
      Println ("Creating matches for tournament: " +:+ tournamentId ev);
      Call_GenerateMatches (tournamentId ev) (groupId ev);
      Println ("ERROR: Expected 63 matches, generated " +:+ pretty (length matches));
      Println ("Successfully created 63 matches for tournament: " +:+ tournamentId ev)],
     Returned tt).
Proof.
  intros Hfind Hlen Hexist Hgen Hlen63. unfold_run.
  rewrite Hfind. run_steps. rewrite Hlen, Hexist, pretty_32, Hgen. run_steps.
  rewrite (bool_decide_eq_true_2 _ Hlen63). reflexivity.
Qed.

(** X12: with 32 teams, no stored match, 63 generated matches and 63 created
    ids, the delegate hands the generated matches to one bulk write and
    reports success twice. *)
Theorem ProcessTeamAddition_persists_63 (group : Group)
    (matches : list Match) (createdIds : list string) :
  FindByTournamentIdAndGroupId (groupRepository d) (tournamentId ev) (groupId ev) = inr (Some group) →
  length (Teams group) = 32%nat →
  MatchesExistForTournament (matchRepository d) (tournamentId ev) (groupId ev) = inr false →
  matchStrategy d (tournamentId ev) (groupId ev) = Some matches →
  length matches = 63%nat →
  CreateBulk (matchRepository d) matches = inr createdIds →
  length createdIds = 63%nat →
  ProcessTeamAddition d ev =
    ([Call_FindByTournamentIdAndGroupId (tournamentId ev) (groupId ev);
      Println ("Tournament " +:+ tournamentId ev +:+ " has 32 teams");
      Call_MatchesExistForTournament (tournamentId ev) (groupId ev);
      Println ("Creating matches for tournament: " +:+ tournamentId ev);
      Call_GenerateMatches (tournamentId ev) (groupId ev);
      Call_CreateBulk matches;
      Println "Successfully saved 63 matches to database";
      Println ("Successfully created 63 matches for tournament: " +:+ tournamentId ev)],
     Returned tt).
Proof.
  intros Hfind Hlen Hexist Hgen Hlen63 Hbulk Hids. unfold_run.
  rewrite Hfind. run_steps. rewrite Hlen, Hexist, pretty_32, Hgen. run_steps.
  rewrite Hlen63, Hbulk. run_steps. rewrite Hids. reflexivity.
Qed.

(** X13: in every run the collaborators are called in one order, each at
    most once, and a bulk write receives the 63 matches of the strategy as
    they are. *)
Theorem ProcessTeamAddition_call_protocol :
  let F := Call_FindByTournamentIdAndGroupId (tournamentId ev) (groupId ev) in
  let E := Call_MatchesExistForTournament (tournamentId ev) (groupId ev) in
  let G := Call_GenerateMatches (tournamentId ev) (groupId ev) in
  let calls := filter is_call (ProcessTeamAddition d ev).1 in
  calls = [F] ∨ calls = [F; E] ∨ calls = [F; E; G]
  ∨ ∃ matches, matchStrategy d (tournamentId ev) (groupId ev) = Some matches
               ∧ length matches = 63%nat
               ∧ calls = [F; E; G; Call_CreateBulk matches].
Proof.
  intros F E G. unfold_run.
  destruct (FindByTournamentIdAndGroupId _ _ _) as [what|[group|]]; run_steps;
    [by left| |by left].
  destruct (bool_decide (length (Teams group) = 32%nat)); [|by left].
  destruct (MatchesExistForTournament _ _ _) as [what|[|]]; run_steps;
    [by right; left|by right; left|].
  destruct (matchStrategy d _ _) as [matches|] eqn:Hgen; run_steps;
    [|by right; right; left].
  destruct (decide (length matches = 63%nat)) as [H63|H63].
  - rewrite (bool_decide_eq_false_2 (length matches ≠ 63%nat)) by (by intros ?).
    right; right; right. exists matches. split; [done|]. split; [done|].
    destruct (CreateBulk _ _) as [what|createdIds]; run_steps; [done|].
    by destruct (bool_decide (length createdIds ≠ 63%nat)).
  - rewrite (bool_decide_eq_true_2 _ H63). by right; right; left.
Qed.


End DelegateRuns.

Section FurtherScenarios.
Import MatchDelegate Scenario Faults.

Lemma ProcessTeamAddition_group_not_found_witness :
  ProcessTeamAddition (new (Scenario.matches false 63) no_group) T1G1 =
    ([Call_FindByTournamentIdAndGroupId "T1" "G1";
      Println "Group not found for tournament: T1, group: G1"],
     Returned tt).
Proof.
  exact (ProcessTeamAddition_group_not_found
           (new (Scenario.matches false 63) no_group) T1G1 eq_refl).
Defined.

Lemma ProcessTeamAddition_bulk_throws_witness :
  let d := mkMatchDelegate (failing_store "db down") (groups 32) sixty_three in
  (ProcessTeamAddition d T1G1).2 = Thrown "db down"
  ∧ last (ProcessTeamAddition d T1G1).1 = Some (Println "ERROR creating matches: db down").
Proof.
  pose proof (ProcessTeamAddition_bulk_throws
                (mkMatchDelegate (failing_store "db down") (groups 32) sixty_three)
                T1G1 (roster 32) (replicate 63 Match_default) "db down"
                eq_refl eq_refl eq_refl eq_refl eq_refl eq_refl) as H.
  cbv zeta. rewrite H. split; reflexivity.
Defined.

Lemma ProcessTeamAddition_wrong_count_witness :
  let d := mkMatchDelegate (Scenario.matches false 63) (groups 32) sixty_four in
  (ProcessTeamAddition d T1G1).2 = Returned tt
  ∧ existsb is_persistence (ProcessTeamAddition d T1G1).1 = false
  ∧ Println "ERROR: Expected 63 matches, generated 64" ∈ (ProcessTeamAddition d T1G1).1.
Proof.
  pose proof (ProcessTeamAddition_wrong_count
                (mkMatchDelegate (Scenario.matches false 63) (groups 32) sixty_four)
                T1G1 (roster 32) (replicate 64 Match_default)
                eq_refl eq_refl eq_refl eq_refl ltac:(vm_compute; lia)) as H.
  cbv zeta. rewrite H. repeat split. unfold fst. find_in_list.
Defined.

Lemma ProcessTeamAddition_persists_63_witness :
  let d := mkMatchDelegate (Scenario.matches false 63) (groups 32) sixty_three in
  (ProcessTeamAddition d T1G1).2 = Returned tt
  ∧ filter is_call (ProcessTeamAddition d T1G1).1 =
      [Call_FindByTournamentIdAndGroupId "T1" "G1";
       Call_MatchesExistForTournament "T1" "G1";
       Call_GenerateMatches "T1" "G1";
       Call_CreateBulk (replicate 63 Match_default)].
Proof.
  pose proof (ProcessTeamAddition_persists_63
                (mkMatchDelegate (Scenario.matches false 63) (groups 32) sixty_three)
                T1G1 (roster 32) (replicate 63 Match_default) (replicate 63 "match-id")
                eq_refl eq_refl eq_refl eq_refl eq_refl eq_refl eq_refl) as H.
  cbv zeta. rewrite H. split; reflexivity.
Defined.


End FurtherScenarios.
